(** * Invoice_ChatBot: the upload endpoint [app/routers/upload.py]

    A shallow embedding of [upload_invoices], the handler of
    [POST /upload/invoices].  The handler validates the uploaded files, reads
    them, and then drives four collaborators in sequence: the document loader,
    the vector-store builder and the agent builder of [InvoiceRAGPipeline],
    and the process-wide [session_manager].

    The collaborators live in other modules of the application; here they are
    interfaces.  Every call the handler makes on them is recorded as an
    [event], so that statements of the form "X is invoked only after Y" or
    "X is never invoked" are statements about the event log of a run.

    Python exceptions are values of [exception]; a computation is a function
    from the session manager's state to an outcome, a new state and the
    events it emitted. *)

From Stdlib Require Import ZArith List Bool Lia.
From Stdlib.Strings Require Import String Ascii Byte.
From Stdlib Require Import DecimalString.
Import ListNotations.
Open Scope string_scope.
Open Scope Z_scope.

(** ** Python strings *)

Module PyStr.

(** [str.lower] on the ASCII range; file names are modelled as ASCII
    strings. *)
Definition lower_ascii (c : ascii) : ascii :=
  let n := nat_of_ascii c in
  if ((65 <=? n) && (n <=? 90))%nat then ascii_of_nat (n + 32) else c.

Fixpoint lower (s : string) : string :=
  match s with
  | EmptyString => EmptyString
  | String c s' => String (lower_ascii c) (lower s')
  end.

(** [s.endswith(suffix)] *)
Definition endswith (s suffix : string) : bool :=
  let n := String.length s in
  let m := String.length suffix in
  if (m <=? n)%nat then String.eqb (substring (n - m) m s) suffix else false.

(** [str(n)] for an [int] *)
Definition str_int (n : Z) : string := NilZero.string_of_int (Z.to_int n).

(** [", ".join(l)] *)
Fixpoint join (sep : string) (l : list string) : string :=
  match l with
  | [] => ""
  | [x] => x
  | x :: rest => x ++ sep ++ join sep rest
  end.

(** [str(l)] for a list of [str]: the items' [repr], comma separated, in
    brackets.  [repr] of a [str] is the interpreter's and is passed in. *)
Definition str_list (repr : string -> string) (l : list string) : string :=
  "[" ++ join ", " (map repr l) ++ "]".

(** The letters [str.lower] changes. *)
Definition is_upper (c : ascii) : bool :=
  let n := nat_of_ascii c in ((65 <=? n) && (n <=? 90))%nat.

(** [any(c.isupper() for c in s)] on the ASCII range. *)
Fixpoint has_upper (s : string) : bool :=
  match s with
  | EmptyString => false
  | String c s' => is_upper c || has_upper s'
  end.

End PyStr.

(** ** Exceptions and outcomes *)

(** The handler distinguishes three families of [Exception]: instances of
    [ValueError] (subclasses included), FastAPI's [HTTPException], and every
    other [Exception].  [msg] is what [str(e)] gives. *)
Inductive exception : Type :=
| ValueError (msg : string)
| HTTPException (status_code : Z) (detail : string)
| OtherException (msg : string).

Inductive result (A : Type) : Type :=
| Ok (a : A)
| Raise (e : exception).
Arguments Ok {A} a.
Arguments Raise {A} e.

Definition is_ValueError (e : exception) : bool :=
  match e with ValueError _ => true | _ => false end.

Definition is_HTTPException (e : exception) : bool :=
  match e with HTTPException _ _ => true | _ => false end.

(** ** Data *)

Definition bytes : Type := list byte.

(** [len(content)] *)
Definition len (content : bytes) : Z := Z.of_nat (List.length content).

(** [app.core.config.settings], the two fields the handler reads. *)
Record Settings : Type := {
  allowed_file_types : list string;
  max_file_size : Z
}.

(** [fastapi.UploadFile]: a name, and what [await file.read()] does. *)
Record UploadFile : Type := {
  filename : string;
  read : result bytes
}.

(** [app.models.schemas.UploadResponse] *)
Record UploadResponse : Type := {
  session_id : string;
  message : string;
  files_processed : Z
}.

(** ** The environment of the handler

    What the handler imports and does not define: the opaque objects that
    flow through it, the retriever factory of the vector store, the
    process-wide [session_manager], the [settings], and two pieces of the
    Python runtime. *)
Class Environment : Type := {
  Document : Type;
  VectorStore : Type;
  Retriever : Type;
  Agent : Type;
  (** the state of the process-wide [session_manager] *)
  SessionStore : Type;
  (** [vector_store.as_retriever(search_kwargs={"k": k})] *)
  as_retriever : VectorStore -> Z -> result Retriever;
  (** [session_manager.create_session(vector_store, agent)]: it may change
      the store, and returns the new session's id or raises *)
  create_session :
    SessionStore -> VectorStore -> Agent -> SessionStore * result string;
  settings : Settings;
  (** [str(e)] of an [HTTPException], as the installed Starlette defines it *)
  HTTPException_str : Z -> string -> string;
  (** [repr] of a [str] *)
  repr_str : string -> string
}.

(** [InvoiceRAGPipeline], as far as the handler uses it. *)
Record InvoiceRAGPipeline `{Env : Environment} : Type := {
  load_documents_from_files : list (string * bytes) -> result (list Document);
  create_vector_store : list Document -> result VectorStore;
  create_agent : Retriever -> result Agent
}.

Section Upload.

Context `{Env : Environment}.

Definition str_exc (e : exception) : string :=
  match e with
  | ValueError msg => msg
  | HTTPException c d => HTTPException_str c d
  | OtherException msg => msg
  end.

(** *** Events: the calls the handler makes on its collaborators *)

Inductive event : Type :=
| EvRead (name : string)
| EvLoadDocuments (processed_files : list (string * bytes))
| EvCreateVectorStore (documents : list Document)
| EvAsRetriever (vector_store : VectorStore) (k : Z)
| EvCreateAgent (retriever : Retriever)
| EvCreateSession (vector_store : VectorStore) (agent : Agent).

Definition is_read (ev : event) : bool :=
  match ev with EvRead _ => true | _ => false end.

Definition is_create_session (ev : event) : bool :=
  match ev with EvCreateSession _ _ => true | _ => false end.

(** *** Computations *)

Definition M (A : Type) : Type :=
  SessionStore -> result A * SessionStore * list event.

Definition ret {A} (a : A) : M A := fun s => (Ok a, s, []).

Definition raise {A} (e : exception) : M A := fun s => (Raise e, s, []).

Definition bind {A B} (m : M A) (k : A -> M B) : M B :=
  fun s =>
    match m s with
    | (Ok a, s1, t1) => let '(r, s2, t2) := k a s1 in (r, s2, (t1 ++ t2)%list)
    | (Raise e, s1, t1) => (Raise e, s1, t1)
    end.

(** [try: m  except Exception as e: h e] *)
Definition try_except {A} (m : M A) (h : exception -> M A) : M A :=
  fun s =>
    match m s with
    | (Ok a, s1, t1) => (Ok a, s1, t1)
    | (Raise e, s1, t1) => let '(r, s2, t2) := h e s1 in (r, s2, (t1 ++ t2)%list)
    end.

(** A call on a collaborator that does not touch the session store. *)
Definition call {A} (ev : event) (r : result A) : M A :=
  fun s => (r, s, [ev]).

Definition call_create_session (vs : VectorStore) (a : Agent) : M string :=
  fun s => let '(s', r) := create_session s vs a in (r, s', [EvCreateSession vs a]).

Definition outcome {A} (x : result A * SessionStore * list event) : result A :=
  fst (fst x).
Definition final_store {A} (x : result A * SessionStore * list event) : SessionStore :=
  snd (fst x).
Definition events {A} (x : result A * SessionStore * list event) : list event :=
  snd x.

Notation "x <- m ;; k" := (bind m (fun x => k))
  (at level 100, m at next level, right associativity).

(** *** The handler *)

(** [any(file.filename.lower().endswith(f".{ext}") for ext in settings.allowed_file_types)] *)
Definition extension_allowed (file : UploadFile) : bool :=
  existsb (fun ext => PyStr.endswith (PyStr.lower (filename file)) ("." ++ ext))
          (allowed_file_types settings).

Definition unsupported_format_detail (file : UploadFile) : string :=
  "File " ++ filename file ++ " has unsupported format. Allowed: "
    ++ PyStr.str_list repr_str (allowed_file_types settings).

Definition exceeds_size_detail (file : UploadFile) : string :=
  "File " ++ filename file ++ " exceeds maximum size of "
    ++ PyStr.str_int (max_file_size settings) ++ " bytes".

Definition error_reading_detail (file : UploadFile) (e : exception) : string :=
  "Error reading file " ++ filename file ++ ": " ++ str_exc e.

(** The body of [for file in files], with [processed_files] threaded
    through. *)
Definition process_file (file : UploadFile) (processed_files : list (string * bytes))
  : M (list (string * bytes)) :=
  if negb (extension_allowed file) then
    raise (HTTPException 400 (unsupported_format_detail file))
  else
    try_except
      (content <- call (EvRead (filename file)) (read file) ;;
       if len content >? max_file_size settings then
         raise (HTTPException 400 (exceeds_size_detail file))
       else
         ret (processed_files ++ [(filename file, content)])%list)
      (fun e => raise (HTTPException 400 (error_reading_detail file e))).

Fixpoint process_files (files : list UploadFile) (processed_files : list (string * bytes))
  : M (list (string * bytes)) :=
  match files with
  | [] => ret processed_files
  | file :: rest =>
      processed_files' <- process_file file processed_files ;;
      process_files rest processed_files'
  end.

Definition no_documents_detail : string :=
  "No valid documents could be extracted from the uploaded files".

Definition success_message : string :=
  "Files uploaded and processed successfully".

(** The body of the second [try]. *)
Definition build_session (rag_pipeline : InvoiceRAGPipeline)
           (processed_files : list (string * bytes)) : M UploadResponse :=
  documents <- call (EvLoadDocuments processed_files)
                    (load_documents_from_files rag_pipeline processed_files) ;;
  match documents with
  | [] => raise (HTTPException 400 no_documents_detail)
  | _ :: _ =>
      vector_store <- call (EvCreateVectorStore documents)
                           (create_vector_store rag_pipeline documents) ;;
      retriever <- call (EvAsRetriever vector_store 3) (as_retriever vector_store 3) ;;
      agent <- call (EvCreateAgent retriever) (create_agent rag_pipeline retriever) ;;
      session_id <- call_create_session vector_store agent ;;
      ret {| session_id := session_id;
             message := success_message;
             files_processed := Z.of_nat (List.length processed_files) |}
  end.

(** [except ValueError as e: ...] then [except Exception as e: ...] *)
Definition handle_exception (e : exception) : M UploadResponse :=
  match e with
  | ValueError _ => raise (HTTPException 400 (str_exc e))
  | _ => raise (HTTPException 500 ("Internal server error: " ++ str_exc e))
  end.

Definition upload_invoices (files : list UploadFile) (rag_pipeline : InvoiceRAGPipeline)
  : M UploadResponse :=
  match files with
  | [] => raise (HTTPException 400 "No files provided")
  | _ :: _ =>
      processed_files <- process_files files [] ;;
      try_except (build_session rag_pipeline processed_files) handle_exception
  end.

(** *** Vocabulary for statements about a run *)

(** A file the loop lets through: its extension is allowed, it reads, and
    its content is within the size limit. *)
Definition accepted (file : UploadFile) : bool :=
  extension_allowed file &&
  match read file with
  | Ok content => negb (len content >? max_file_size settings)
  | Raise _ => false
  end.

(** What the loop appends to [processed_files] for a file that it reads. *)
Definition entry (file : UploadFile) : list (string * bytes) :=
  match read file with
  | Ok content => [(filename file, content)]
  | Raise _ => []
  end.

Definition entries (files : list UploadFile) : list (string * bytes) :=
  flat_map entry files.

(** The reads of a batch, one for each file in order. *)
Definition reads (files : list UploadFile) : list event :=
  map (fun file => EvRead (filename file)) files.

(** An exception raised inside the [try] block around [file.read()]: by the
    read itself, or by the size check. *)
Inductive read_block_raises (file : UploadFile) : exception -> Prop :=
| Read_raises e :
    read file = Raise e -> read_block_raises file e
| Size_exceeded content :
    read file = Ok content ->
    len content > max_file_size settings ->
    read_block_raises file (HTTPException 400 (exceeds_size_detail file)).

(** Loading, index construction, retriever and agent construction all
    succeed on [processed_files]. *)
Definition stages_succeed (rag_pipeline : InvoiceRAGPipeline)
           (processed_files : list (string * bytes))
           (documents : list Document) (vector_store : VectorStore)
           (retriever : Retriever) (agent : Agent) : Prop :=
  load_documents_from_files rag_pipeline processed_files = Ok documents /\
  documents <> [] /\
  create_vector_store rag_pipeline documents = Ok vector_store /\
  as_retriever vector_store 3 = Ok retriever /\
  create_agent rag_pipeline retriever = Ok agent.

(** One of the stages before session creation raises [e]. *)
Inductive stage_raises (rag_pipeline : InvoiceRAGPipeline)
          (processed_files : list (string * bytes)) (e : exception) : Prop :=
| Loading_raises :
    load_documents_from_files rag_pipeline processed_files = Raise e ->
    stage_raises rag_pipeline processed_files e
| Index_raises documents :
    load_documents_from_files rag_pipeline processed_files = Ok documents ->
    documents <> [] ->
    create_vector_store rag_pipeline documents = Raise e ->
    stage_raises rag_pipeline processed_files e
| Retriever_raises documents vector_store :
    load_documents_from_files rag_pipeline processed_files = Ok documents ->
    documents <> [] ->
    create_vector_store rag_pipeline documents = Ok vector_store ->
    as_retriever vector_store 3 = Raise e ->
    stage_raises rag_pipeline processed_files e
| Agent_raises documents vector_store retriever :
    load_documents_from_files rag_pipeline processed_files = Ok documents ->
    documents <> [] ->
    create_vector_store rag_pipeline documents = Ok vector_store ->
    as_retriever vector_store 3 = Ok retriever ->
    create_agent rag_pipeline retriever = Raise e ->
    stage_raises rag_pipeline processed_files e.

(** All stages succeed and [create_session] raises [e] on [store]. *)
Definition session_creation_raises (rag_pipeline : InvoiceRAGPipeline)
           (processed_files : list (string * bytes)) (store : SessionStore)
           (e : exception) : Prop :=
  exists documents vector_store retriever agent store',
    stages_succeed rag_pipeline processed_files documents vector_store retriever agent /\
    create_session store vector_store agent = (store', Raise e).

(** The calls the second [try] makes before it creates the session, with the
    retrieval width they are made with. *)
Definition before_session (ev : event) : bool :=
  match ev with
  | EvLoadDocuments _ | EvCreateVectorStore _ | EvCreateAgent _ => true
  | EvAsRetriever _ k => k =? 3
  | EvRead _ | EvCreateSession _ _ => false
  end.

(** The events of a run in which every stage is reached. *)
Definition complete_events (files : list UploadFile) (documents : list Document)
           (vector_store : VectorStore) (retriever : Retriever) (agent : Agent)
  : list event :=
  (reads files ++
   [EvLoadDocuments (entries files); EvCreateVectorStore documents;
    EvAsRetriever vector_store 3; EvCreateAgent retriever;
    EvCreateSession vector_store agent])%list.

(** The position of a call in the handler: reads come first, then the five
    calls of the second [try] in the order they are written. *)
Definition stage_of (ev : event) : nat :=
  match ev with
  | EvRead _ => 0
  | EvLoadDocuments _ => 1
  | EvCreateVectorStore _ => 2
  | EvAsRetriever _ _ => 3
  | EvCreateAgent _ => 4
  | EvCreateSession _ _ => 5
  end.

(** What the handler does with an exception that reaches the handlers of the
    second [try]. *)
Definition reported (e : exception) : exception :=
  if is_ValueError e then HTTPException 400 (str_exc e)
  else HTTPException 500 ("Internal server error: " ++ str_exc e).

(** *** The Document Loader of the specification *)



End Upload.

Arguments upload_invoices {Env} files rag_pipeline _.
Arguments process_files {Env} files processed_files _.
Arguments build_session {Env} rag_pipeline processed_files _.

(** ** A concrete environment

    Small stand-ins for the collaborators, used to run the handler on
    concrete batches. *)

Module Demo.

Definition content_of (s : string) : bytes := list_byte_of_string s.

(** The lines of a file, without the empty ones. *)
Fixpoint rows (content : bytes) (line : string) : list string :=
  match content with
  | [] => if String.eqb line "" then [] else [line]
  | b :: rest =>
      if Byte.eqb b "010"%byte then
        if String.eqb line "" then rows rest "" else line :: rows rest ""
      else rows rest (line ++ String (ascii_of_byte b) "")
  end.

(** A loader that dispatches on the extension: a CSV file gives a document
    for each row after the header, a JSON file one document unless it is
    empty, anything else nothing. *)
Definition load_file (file : string * bytes) : list string :=
  let '(name, content) := file in
  if PyStr.endswith (PyStr.lower name) ".csv" then
    map (fun row => name ++ ": " ++ row) (tl (rows content ""))
  else if PyStr.endswith (PyStr.lower name) ".json" then
    match content with
    | [] => []
    | _ :: _ => [name ++ ": " ++ string_of_list_byte content]
    end
  else [].

Definition Sessions : Type := list (string * (list string * (list string * Z))).

(** A session store that numbers its sessions. *)
Definition new_session (store : Sessions) (vs : list string) (a : list string * Z)
  : Sessions * result string :=
  let sid := "session-" ++ PyStr.str_int (Z.of_nat (List.length store)) in
  ((sid, (vs, a)) :: store, Ok sid).

#[export] Instance env : Environment := {|
  Document := string;
  VectorStore := list string;
  Retriever := list string * Z;
  Agent := list string * Z;
  SessionStore := Sessions;
  as_retriever := fun vs k => Ok (vs, k);
  create_session := new_session;
  settings := {| allowed_file_types := ["json"; "csv"]; max_file_size := 1024 |};
  HTTPException_str := fun c d => PyStr.str_int c ++ ": " ++ d;
  repr_str := fun s => "'" ++ s ++ "'"
|}.

Definition pipeline : InvoiceRAGPipeline := {|
  load_documents_from_files := fun files => Ok (flat_map load_file files);
  create_vector_store := fun documents => Ok documents;
  create_agent := fun retriever => Ok retriever
|}.

(** A pipeline whose embedding provider is not configured. *)
Definition misconfigured : InvoiceRAGPipeline := {|
  load_documents_from_files := fun files => Ok (flat_map load_file files);
  create_vector_store := fun _ => Raise (ValueError "embedding model is not configured");
  create_agent := fun retriever => Ok retriever
|}.

Definition newline : string := String (ascii_of_nat 10) "".

Definition invoices_csv : UploadFile := {|
  filename := "invoices.csv";
  read := Ok (content_of ("id,amount" ++ newline ++ "1,10" ++ newline ++ "2,20" ++ newline
                          ++ "3,30" ++ newline ++ "4,40" ++ newline ++ "5,50" ++ newline))
|}.

Definition empty_json : UploadFile := {| filename := "empty.json"; read := Ok [] |}.

Definition notes_txt : UploadFile := {|
  filename := "notes.txt"; read := Ok (content_of "call the supplier")
|}.

Definition broken_csv : UploadFile := {|
  filename := "broken.csv"; read := Raise (OtherException "connection reset")
|}.

Definition huge_json : UploadFile := {|
  filename := "huge.json"; read := Ok (repeat "{"%byte 1025)
|}.

(** The documents [load_file] makes of [invoices_csv]. *)
Definition invoice_documents : list string :=
  ["invoices.csv: 1,10"; "invoices.csv: 2,20"; "invoices.csv: 3,30";
   "invoices.csv: 4,40"; "invoices.csv: 5,50"].

Definition run (files : list UploadFile) (rag_pipeline : InvoiceRAGPipeline) (store : Sessions) :=
  upload_invoices (Env := env) files rag_pipeline store.

(** The same environment with other settings or another session store. *)
Definition env_with (s : Settings)
           (new : Sessions -> list string -> list string * Z -> Sessions * result string)
  : Environment := {|
  Document := string;
  VectorStore := list string;
  Retriever := list string * Z;
  Agent := list string * Z;
  SessionStore := Sessions;
  as_retriever := fun vs k => Ok (vs, k);
  create_session := new;
  settings := s;
  HTTPException_str := fun c d => PyStr.str_int c ++ ": " ++ d;
  repr_str := fun s => "'" ++ s ++ "'"
|}.

Definition pipeline_with (E : Environment)
           (load : list (string * bytes) -> result (list (@Document E)))
           (index : list (@Document E) -> result (@VectorStore E))
           (agent : @Retriever E -> result (@Agent E))
  : @InvoiceRAGPipeline E := {|
  load_documents_from_files := load;
  create_vector_store := index;
  create_agent := agent
|}.

(** Settings whose allowed types are written with capitals. *)
Definition capital_types : Environment :=
  env_with {| allowed_file_types := ["CSV"; "Json"]; max_file_size := 1024 |} new_session.

(** A session store that records the session and then fails. *)
Definition full_store : Environment :=
  env_with {| allowed_file_types := ["json"; "csv"]; max_file_size := 1024 |}
           (fun store vs a =>
              (("unfinished", (vs, a)) :: store, Raise (OtherException "session store is full"))).

(** A pipeline whose loader answers with an [HTTPException] of its own. *)
Definition remote_loader : InvoiceRAGPipeline :=
  pipeline_with env
    (fun _ => Raise (HTTPException 404 "parser service not found"))
    (fun documents => Ok documents)
    (fun retriever => Ok retriever).

Definition capital_csv : UploadFile := {|
  filename := "Q3-Invoices" ++ "." ++ "CSV"; read := Ok (content_of "id,amount")
|}.

(** A file of exactly [max_file_size] bytes. *)
Definition full_json : UploadFile := {|
  filename := "full.json"; read := Ok (repeat "{"%byte 1024)
|}.







End Demo.

(** ** Properties of the handler *)

Section Properties.

Context `{Env : Environment}.

(** *** The validation loop *)

Lemma process_file_run (file : UploadFile) (acc : list (string * bytes)) (st : SessionStore) :
  (accepted file = true /\
   process_file file acc st = (Ok (acc ++ entry file)%list, st, [EvRead (filename file)]))
  \/
  (accepted file = false /\
   exists d t, process_file file acc st = (Raise (HTTPException 400 d), st, t) /\
               (t = [] \/ t = [EvRead (filename file)])).
Proof.
  unfold process_file, accepted, entry, try_except, bind, call, raise, ret.
  destruct (extension_allowed file); simpl.
  - destruct (read file) as [content|e]; simpl.
    + destruct (len content >? max_file_size settings); simpl.
      * right. split; [reflexivity|]. eauto.
      * left. split; reflexivity.
    + right. split; [reflexivity|]. eauto.
  - right. split; [reflexivity|]. eauto.
Qed.

Lemma process_files_prefix (pre rest : list UploadFile) :
  Forall (fun file => accepted file = true) pre ->
  forall acc st,
    process_files (pre ++ rest) acc st =
    let '(r, s, t) := process_files rest (acc ++ entries pre)%list st in
    (r, s, (reads pre ++ t)%list).
Proof.
  induction 1 as [|file pre Hfile Hpre IH]; intros acc st.
  - simpl. rewrite app_nil_r. destruct (process_files rest acc st) as [[r s] t].
    reflexivity.
  - simpl. unfold bind at 1.
    destruct (process_file_run file acc st) as [[_ ->]|[Hrej _]]; [|congruence].
    rewrite IH. rewrite <- app_assoc.
    destruct (process_files rest (acc ++ entry file ++ entries pre)%list st) as [[r s] t].
    reflexivity.
Qed.

Lemma process_files_accepted (files : list UploadFile) acc st :
  Forall (fun file => accepted file = true) files ->
  process_files files acc st = (Ok (acc ++ entries files)%list, st, reads files).
Proof.
  intros Hall. rewrite <- (app_nil_r files) at 1.
  rewrite (process_files_prefix files [] Hall). simpl. now rewrite app_nil_r.
Qed.

Lemma process_files_store_and_events (files : list UploadFile) :
  forall acc st,
    final_store (process_files files acc st) = st /\
    Forall (fun ev => is_read ev = true) (events (process_files files acc st)).
Proof.
  induction files as [|file rest IH]; intros acc st.
  - split; [reflexivity|constructor].
  - simpl. unfold bind.
    destruct (process_file_run file acc st) as [[_ ->]|[_ (d & t & -> & Ht)]].
    + specialize (IH (acc ++ entry file)%list st).
      destruct (process_files rest (acc ++ entry file)%list st) as [[r s] t].
      destruct IH as [IHs IHt]. unfold final_store, events in *; simpl in *.
      split; [assumption|]. constructor; [reflexivity|assumption].
    + unfold final_store, events; simpl. split; [reflexivity|].
      destruct Ht as [->| ->]; repeat constructor.
Qed.

Lemma process_files_rejected (files : list UploadFile) :
  forall acc st,
    Exists (fun file => accepted file = false) files ->
    exists d, outcome (process_files files acc st) = Raise (HTTPException 400 d).
Proof.
  induction files as [|file rest IH]; intros acc st Hex.
  - inversion Hex.
  - simpl. unfold bind at 1.
    destruct (process_file_run file acc st) as [[Hacc ->]|[_ (d & t & -> & _)]].
    + assert (Hrest : Exists (fun file => accepted file = false) rest)
        by (inversion Hex; subst; [congruence|assumption]).
      destruct (IH (acc ++ entry file)%list st Hrest) as [d Hd].
      destruct (process_files rest (acc ++ entry file)%list st) as [[r s] t].
      exists d. exact Hd.
    + exists d. reflexivity.
Qed.

Lemma accepted_or_rejected (files : list UploadFile) :
  Forall (fun file => accepted file = true) files \/
  Exists (fun file => accepted file = false) files.
Proof.
  induction files as [|file rest [IH|IH]].
  - left. constructor.
  - destruct (accepted file) eqn:E.
    + left. now constructor.
    + right. now constructor.
  - right. now constructor 2.
Qed.

(** *** The guarded construction: the second [try] with its handlers *)

Local Abbreviation guarded rp pfs :=
  (try_except (build_session rp pfs) handle_exception).

Lemma handle_exception_run (e : exception) (st : SessionStore) :
  handle_exception e st = (Raise (reported e), st, []).
Proof. destruct e; reflexivity. Qed.

Ltac run_guarded :=
  unfold try_except, build_session, bind, call, call_create_session, raise, ret.

Lemma guarded_stage_raises rp pfs st e :
  stage_raises rp pfs e ->
  exists t, guarded rp pfs st = (Raise (reported e), st, t) /\
            Forall (fun ev => before_session ev = true) t.
Proof.
  intros Hstage. run_guarded.
  destruct Hstage as [Hl|docs Hl Hne Hv|docs vs Hl Hne Hv Hr|docs vs retr Hl Hne Hv Hr Ha];
    rewrite Hl; try (destruct docs as [|doc docs]; [congruence|]; rewrite Hv);
    try rewrite Hr; try rewrite Ha; rewrite handle_exception_run;
    eexists; (split; [reflexivity|]); simpl; repeat constructor.
Qed.

Lemma guarded_no_documents rp pfs st :
  load_documents_from_files rp pfs = Ok [] ->
  guarded rp pfs st =
  (Raise (HTTPException 500
            ("Internal server error: " ++ HTTPException_str 400 no_documents_detail)),
   st, [EvLoadDocuments pfs]).
Proof. intros Hl. run_guarded. rewrite Hl. reflexivity. Qed.

Lemma guarded_stages_succeed rp pfs st docs vs retr a :
  stages_succeed rp pfs docs vs retr a ->
  guarded rp pfs st =
  (match snd (create_session st vs a) with
   | Ok sid => Ok {| session_id := sid;
                     message := success_message;
                     files_processed := Z.of_nat (List.length pfs) |}
   | Raise e => Raise (reported e)
   end,
   fst (create_session st vs a),
   [EvLoadDocuments pfs; EvCreateVectorStore docs; EvAsRetriever vs 3;
    EvCreateAgent retr; EvCreateSession vs a]).
Proof.
  intros (Hl & Hne & Hv & Hr & Ha). run_guarded.
  rewrite Hl. destruct docs as [|doc docs]; [congruence|].
  rewrite Hv, Hr, Ha. destruct (create_session st vs a) as [st' [sid|e]]; simpl.
  - reflexivity.
  - rewrite handle_exception_run. reflexivity.
Qed.

Lemma stages_cases rp pfs :
  (exists e, stage_raises rp pfs e) \/
  load_documents_from_files rp pfs = Ok [] \/
  (exists docs vs retr a, stages_succeed rp pfs docs vs retr a).
Proof.
  destruct (load_documents_from_files rp pfs) as [docs|e] eqn:Hl.
  2: { left. exists e. now constructor 1. }
  destruct docs as [|doc docs]; [right; left; reflexivity|].
  assert (Hne : doc :: docs <> []) by discriminate.
  destruct (create_vector_store rp (doc :: docs)) as [vs|e] eqn:Hv.
  2: { left. exists e. now apply Index_raises with (doc :: docs). }
  destruct (as_retriever vs 3) as [retr|e] eqn:Hr.
  2: { left. exists e. now apply Retriever_raises with (doc :: docs) vs. }
  destruct (create_agent rp retr) as [a|e] eqn:Ha.
  2: { left. exists e. now apply Agent_raises with (doc :: docs) vs retr. }
  right; right. exists (doc :: docs), vs, retr, a. repeat split; assumption.
Qed.

(** *** The handler as a whole *)

Lemma upload_accepted_run files rp st :
  files <> [] ->
  Forall (fun file => accepted file = true) files ->
  upload_invoices files rp st =
  let '(r, s, t) := guarded rp (entries files) st in
  (r, s, (reads files ++ t)%list).
Proof.
  intros Hne Hall. destruct files as [|file rest]; [congruence|].
  unfold upload_invoices, bind.
  rewrite (process_files_accepted (file :: rest) [] st Hall). reflexivity.
Qed.

Lemma upload_rejected_run files rp st :
  Exists (fun file => accepted file = false) files ->
  exists d t, upload_invoices files rp st = (Raise (HTTPException 400 d), st, t) /\
              Forall (fun ev => is_read ev = true) t.
Proof.
  intros Hex. destruct files as [|file rest]; [inversion Hex|].
  unfold upload_invoices, bind.
  destruct (process_files_rejected (file :: rest) [] st Hex) as [d Hd].
  destruct (process_files_store_and_events (file :: rest) [] st) as [Hs Ht].
  destruct (process_files (file :: rest) [] st) as [[r s] t].
  unfold outcome, final_store, events in *; simpl in *. subst r s.
  exists d, t. split; [reflexivity|assumption].
Qed.

Lemma upload_cases files rp st :
  (exists d t, upload_invoices files rp st = (Raise (HTTPException 400 d), st, t) /\
               Forall (fun ev => is_read ev = true) t)
  \/
  (files <> [] /\ Forall (fun file => accepted file = true) files /\
   ((exists e t, stage_raises rp (entries files) e /\
                 upload_invoices files rp st = (Raise (reported e), st, (reads files ++ t)%list) /\
                 Forall (fun ev => before_session ev = true) t)
    \/
    (load_documents_from_files rp (entries files) = Ok [] /\
     upload_invoices files rp st =
     (Raise (HTTPException 500
               ("Internal server error: " ++ HTTPException_str 400 no_documents_detail)),
      st, (reads files ++ [EvLoadDocuments (entries files)])%list))
    \/
    (exists docs vs retr a,
        stages_succeed rp (entries files) docs vs retr a /\
        upload_invoices files rp st =
        (match snd (create_session st vs a) with
         | Ok sid => Ok {| session_id := sid;
                           message := success_message;
                           files_processed := Z.of_nat (List.length (entries files)) |}
         | Raise e => Raise (reported e)
         end,
         fst (create_session st vs a),
         complete_events files docs vs retr a)))).
Proof.
  destruct files as [|file rest] eqn:Hfiles.
  { left. exists "No files provided", []. split; [reflexivity|constructor]. }
  rewrite <- Hfiles. assert (Hne : files <> []) by (subst; discriminate).
  clear Hfiles.
  destruct (accepted_or_rejected files) as [Hall|Hex].
  2: { left. now apply upload_rejected_run. }
  right. split; [assumption|]. split; [assumption|].
  rewrite (upload_accepted_run files rp st Hne Hall).
  destruct (stages_cases rp (entries files)) as [[e He]|[Hl|(docs & vs & retr & a & Hok)]].
  - left. destruct (guarded_stage_raises rp (entries files) st e He) as (t & -> & Ht).
    exists e, t. auto.
  - right; left. rewrite (guarded_no_documents rp (entries files) st Hl). auto.
  - right; right. exists docs, vs, retr, a.
    rewrite (guarded_stages_succeed rp (entries files) st docs vs retr a Hok). auto.
Qed.

Lemma reads_are_reads files : Forall (fun ev => is_read ev = true) (reads files).
Proof. induction files; constructor; auto. Qed.

Lemma in_all (P : event -> bool) (ev : event) (t : list event) :
  Forall (fun ev => P ev = true) t -> In ev t -> P ev = true.
Proof. intros Hall Hin. rewrite Forall_forall in Hall. now apply Hall. Qed.

Lemma in_complete_events files docs vs retr a ev :
  In ev (complete_events files docs vs retr a) ->
  is_read ev = true \/ before_session ev = true \/ ev = EvCreateSession vs a.
Proof.
  unfold complete_events. rewrite in_app_iff. intros [Hin|Hin].
  - left. exact (in_all is_read ev _ (reads_are_reads files) Hin).
  - simpl in Hin.
    destruct Hin as [<-|[<-|[<-|[<-|[<-|[]]]]]]; auto.
Qed.

(** *** An empty batch *)

(** C8: uploading zero files fails with an HTTP 400 error ("No files
    provided"); no file is read, the Document Loader, the Index Builder, the
    Agent Builder and the Session Manager are not invoked (the run has no
    events), and the session store is left as it was. *)
Theorem upload_of_no_files_is_rejected (rp : InvoiceRAGPipeline) (st : SessionStore) :
  upload_invoices [] rp st = (Raise (HTTPException 400 "No files provided"), st, []).
Proof. reflexivity. Qed.

(** *** Sessions are registered last *)

(** C1: in every run of the upload, [create_session] is invoked only after
    document loading, vector-store construction (with its retriever) and
    agent construction have all succeeded, and it is invoked with the vector
    store and the agent they produced, as the last call of the run.  If one
    of these stages raises, [create_session] is not invoked, the session
    store is left as it was, and the upload fails.  The store never changes
    in a run that does not invoke [create_session]. *)
Theorem session_is_created_only_after_all_stages
        (files : list UploadFile) (rp : InvoiceRAGPipeline) (st : SessionStore) :
  let run := upload_invoices files rp st in
  (forall vs a,
      In (EvCreateSession vs a) (events run) ->
      exists docs retr,
        stages_succeed rp (entries files) docs vs retr a /\
        events run = complete_events files docs vs retr a) /\
  (forall e,
      files <> [] ->
      Forall (fun file => accepted file = true) files ->
      stage_raises rp (entries files) e ->
      Forall (fun ev => is_create_session ev = false) (events run) /\
      final_store run = st /\
      exists e', outcome run = Raise e') /\
  (Forall (fun ev => is_create_session ev = false) (events run) ->
   final_store run = st).
Proof.
  intros run. subst run.
  destruct (upload_cases files rp st)
    as [(d & t & Hrun & Ht)
       |(Hne & Hall & [(e & t & He & Hrun & Ht)
                      |[(Hl & Hrun)|(docs & vs & retr & a & Hok & Hrun)]])];
    rewrite Hrun; unfold events, final_store, outcome; simpl.
  - (* rejected before the second [try] *)
    split; [|split].
    + intros vs a Hin. apply (in_all is_read _ _ Ht) in Hin. discriminate.
    + intros e _ _ _. split; [|split; eauto].
      eapply Forall_impl; [|exact Ht]. intros [] Hev; simpl in *; congruence.
    + reflexivity.
  - (* a stage raised *)
    assert (Hno : Forall (fun ev => is_create_session ev = false) (reads files ++ t)).
    { apply Forall_app. split.
      - eapply Forall_impl; [|apply reads_are_reads]. intros [] Hev; simpl in *; congruence.
      - eapply Forall_impl; [|exact Ht]. intros [] Hev; simpl in *; congruence. }
    split; [|split].
    + intros vs a Hin. rewrite Forall_forall in Hno. apply Hno in Hin. discriminate.
    + intros e' _ _ _. split; [exact Hno|]. split; eauto.
    + reflexivity.
  - (* no documents *)
    assert (Hno : Forall (fun ev => is_create_session ev = false)
                         (reads files ++ [EvLoadDocuments (entries files)])).
    { apply Forall_app. split.
      - eapply Forall_impl; [|apply reads_are_reads]. intros [] Hev; simpl in *; congruence.
      - repeat constructor. }
    split; [|split].
    + intros vs a Hin. rewrite Forall_forall in Hno. apply Hno in Hin. discriminate.
    + intros e' _ _ _. split; [exact Hno|]. split; eauto.
    + reflexivity.
  - (* every stage succeeded *)
    split; [|split].
    + intros vs' a' Hin. apply in_complete_events in Hin.
      destruct Hin as [Hin|[Hin|Hin]]; try discriminate.
      injection Hin as -> ->. exists docs, retr. split; [assumption|reflexivity].
    + intros e _ _ Hraise. exfalso.
      destruct Hok as (Hl & Hd & Hv & Hr & Ha).
      destruct Hraise as [Hl'|docs' Hl' _ Hv'|docs' vs' Hl' _ Hv' Hr'
                         |docs' vs' retr' Hl' _ Hv' Hr' Ha'];
        rewrite Hl in Hl'; try discriminate; injection Hl' as <-;
        rewrite Hv in Hv'; try discriminate; injection Hv' as <-;
        rewrite Hr in Hr'; try discriminate; injection Hr' as <-;
        rewrite Ha in Ha'; discriminate.
    + intros Hno. exfalso. unfold complete_events in Hno.
      apply Forall_app in Hno. destruct Hno as [_ Hno].
      do 4 (apply Forall_inv_tail in Hno). apply Forall_inv in Hno. discriminate.
Qed.

(** *** The retrieval width *)

(** C7: whatever the batch, the pipeline, the settings and the session
    store, every retriever the upload asks a vector store for is asked with
    [k = 3]; and when the upload succeeds, the agent bound to the session was
    built on the retriever obtained with [k = 3] from the session's vector
    store. *)
Theorem retrieval_width_is_three
        (files : list UploadFile) (rp : InvoiceRAGPipeline) (st : SessionStore) :
  let run := upload_invoices files rp st in
  (forall vs k, In (EvAsRetriever vs k) (events run) -> k = 3) /\
  (forall response,
      outcome run = Ok response ->
      exists vs retr a,
        as_retriever vs 3 = Ok retr /\
        create_agent rp retr = Ok a /\
        In (EvAsRetriever vs 3) (events run) /\
        In (EvCreateAgent retr) (events run) /\
        In (EvCreateSession vs a) (events run)).
Proof.
  intros run. subst run.
  destruct (upload_cases files rp st)
    as [(d & t & Hrun & Ht)
       |(Hne & Hall & [(e & t & He & Hrun & Ht)
                      |[(Hl & Hrun)|(docs & vs & retr & a & Hok & Hrun)]])];
    rewrite Hrun; unfold events, outcome; simpl.
  - split; [|discriminate].
    intros vs k Hin. apply (in_all is_read _ _ Ht) in Hin. discriminate.
  - split; [|discriminate].
    intros vs k Hin. apply in_app_iff in Hin. destruct Hin as [Hin|Hin].
    + apply (in_all is_read _ _ (reads_are_reads files)) in Hin. discriminate.
    + apply (in_all before_session _ _ Ht) in Hin. simpl in Hin. lia.
  - split; [|discriminate].
    intros vs k Hin. apply in_app_iff in Hin. destruct Hin as [Hin|[Hin|[]]].
    + apply (in_all is_read _ _ (reads_are_reads files)) in Hin. discriminate.
    + discriminate.
  - split.
    + intros vs' k Hin. apply in_complete_events in Hin.
      destruct Hin as [Hin|[Hin|Hin]]; try discriminate. simpl in Hin. lia.
    + intros response _. destruct Hok as (Hl & Hd & Hv & Hr & Ha).
      exists vs, retr, a. unfold complete_events.
      repeat split; try assumption; apply in_or_app; right; simpl; auto 6.
Qed.

(** *** Failures while the files are read *)

Lemma process_file_read_block_raises file acc st e :
  extension_allowed file = true ->
  read_block_raises file e ->
  process_file file acc st =
  (Raise (HTTPException 400 (error_reading_detail file e)), st, [EvRead (filename file)]).
Proof.
  intros Hext Hraise.
  unfold process_file, try_except, bind, call, raise, ret. rewrite Hext. simpl.
  destruct Hraise as [e Hread|content Hread Hsize]; rewrite Hread.
  - reflexivity.
  - apply Z.gtb_gt in Hsize. rewrite Hsize. reflexivity.
Qed.

(** C10: if the [try] block around the read of a file raises, by the read
    itself or by the size check inside the block, at a file that the loop
    reaches (every file before it was accepted and its own extension is
    allowed), the upload is aborted with an HTTP 400 error whose detail is
    "Error reading file <filename>: <str(e)>".  The failing file is not
    skipped and nothing after it is processed: the run reads the files up to
    and including the failing one and makes no other call, whatever follows
    in the batch, and the session store is left as it was. *)
Theorem read_failure_aborts_the_upload
        (pre post : list UploadFile) (file : UploadFile)
        (rp : InvoiceRAGPipeline) (st : SessionStore) (e : exception) :
  Forall (fun f => accepted f = true) pre ->
  extension_allowed file = true ->
  read_block_raises file e ->
  upload_invoices (pre ++ file :: post) rp st =
  (Raise (HTTPException 400 ("Error reading file " ++ filename file ++ ": " ++ str_exc e)),
   st,
   (reads pre ++ [EvRead (filename file)])%list).
Proof.
  intros Hpre Hext Hraise.
  assert (Hrun : process_files (pre ++ file :: post) [] st =
                 (Raise (HTTPException 400 (error_reading_detail file e)), st,
                  (reads pre ++ [EvRead (filename file)])%list)).
  { rewrite (process_files_prefix pre (file :: post) Hpre). simpl. unfold bind.
    now rewrite (process_file_read_block_raises file _ st e Hext Hraise). }
  destruct (pre ++ file :: post)%list as [|f rest] eqn:Hfiles.
  - destruct pre; discriminate.
  - unfold upload_invoices, bind. rewrite Hrun. reflexivity.
Qed.

(** *** Files with an extension that is not allowed *)

(** C2, as the handler has it: a batch that contains a file whose name ends
    with none of the allowed extensions is rejected with an HTTP 400 error;
    the Document Loader is not invoked (the run only reads files) and the
    session store is left as it was.  When every file before the first such
    file is accepted, the error names that file and nothing after the
    accepted files is read. *)
Theorem unsupported_extension_rejects_the_upload
        (files : list UploadFile) (rp : InvoiceRAGPipeline) (st : SessionStore) :
  Exists (fun file => extension_allowed file = false) files ->
  let run := upload_invoices files rp st in
  (exists d, outcome run = Raise (HTTPException 400 d)) /\
  Forall (fun ev => is_read ev = true) (events run) /\
  final_store run = st /\
  (forall pre file post,
      files = (pre ++ file :: post)%list ->
      Forall (fun f => accepted f = true) pre ->
      extension_allowed file = false ->
      run = (Raise (HTTPException 400
                      ("File " ++ filename file ++ " has unsupported format. Allowed: "
                       ++ PyStr.str_list repr_str (allowed_file_types settings))),
             st, reads pre)).
Proof.
  intros Hex run. subst run.
  assert (Hrej : Exists (fun file => accepted file = false) files).
  { eapply Exists_impl; [|exact Hex]. intros f Hf. unfold accepted. now rewrite Hf. }
  destruct (upload_rejected_run files rp st Hrej) as (d & t & Hrun & Ht).
  split; [|split; [|split]].
  - rewrite Hrun. exists d. reflexivity.
  - rewrite Hrun. exact Ht.
  - rewrite Hrun. reflexivity.
  - intros pre file post -> Hpre Hext. clear Hrun.
    assert (Hp : process_files (pre ++ file :: post) [] st =
                 (Raise (HTTPException 400 (unsupported_format_detail file)), st, reads pre)).
    { rewrite (process_files_prefix pre (file :: post) Hpre). simpl. unfold bind.
      unfold process_file. rewrite Hext. simpl. now rewrite app_nil_r. }
    destruct (pre ++ file :: post)%list as [|f rest] eqn:Hfiles.
    + destruct pre; discriminate.
    + unfold upload_invoices, bind. rewrite Hp. reflexivity.
Qed.

(** *** Exceptions of the construction stages *)

Lemma upload_stage_raises files rp st e :
  files <> [] ->
  Forall (fun file => accepted file = true) files ->
  stage_raises rp (entries files) e \/ session_creation_raises rp (entries files) st e ->
  outcome (upload_invoices files rp st) = Raise (reported e) /\
  (stage_raises rp (entries files) e -> final_store (upload_invoices files rp st) = st).
Proof.
  intros Hne Hall Hraise. rewrite (upload_accepted_run files rp st Hne Hall).
  destruct Hraise as [Hstage|(docs & vs & retr & a & st' & Hok & Hcs)].
  - destruct (guarded_stage_raises rp (entries files) st e Hstage) as (t & -> & _).
    split; reflexivity.
  - rewrite (guarded_stages_succeed rp (entries files) st docs vs retr a Hok), Hcs.
    split; [reflexivity|].
    intros Hstage. exfalso.
    destruct Hok as (Hl & Hd & Hv & Hr & Ha).
    destruct Hstage as [Hl'|docs' Hl' _ Hv'|docs' vs' Hl' _ Hv' Hr'
                       |docs' vs' retr' Hl' _ Hv' Hr' Ha'];
      rewrite Hl in Hl'; try discriminate; injection Hl' as <-;
      rewrite Hv in Hv'; try discriminate; injection Hv' as <-;
      rewrite Hr in Hr'; try discriminate; injection Hr' as <-;
      rewrite Ha in Ha'; discriminate.
Qed.

(** C9: when document loading, vector-store construction (with its
    retriever), agent construction or session creation raises an exception
    [e] that is not an [HTTPException], the upload answers with an HTTP 400
    error carrying [str(e)] if [e] is a [ValueError], and with an HTTP 500
    error ("Internal server error: " followed by [str(e)]) otherwise. *)
Theorem stage_exceptions_are_reported
        (files : list UploadFile) (rp : InvoiceRAGPipeline) (st : SessionStore)
        (e : exception) :
  files <> [] ->
  Forall (fun file => accepted file = true) files ->
  stage_raises rp (entries files) e \/ session_creation_raises rp (entries files) st e ->
  is_HTTPException e = false ->
  let run := upload_invoices files rp st in
  (is_ValueError e = true ->
   outcome run = Raise (HTTPException 400 (str_exc e))) /\
  (is_ValueError e = false ->
   outcome run = Raise (HTTPException 500 ("Internal server error: " ++ str_exc e))).
Proof.
  intros Hne Hall Hraise _ run. subst run.
  destruct (upload_stage_raises files rp st e Hne Hall Hraise) as [-> _].
  unfold reported. split; intros ->; reflexivity.
Qed.

(** C3, as the handler has it: when vector-store construction or agent
    construction raises [e], the upload fails and the session store is left
    as it was; the answer is an HTTP 500 error unless [e] is a [ValueError],
    and an HTTP 400 error carrying [str(e)] when it is one. *)
Theorem construction_failure_is_reported
        (files : list UploadFile) (rp : InvoiceRAGPipeline) (st : SessionStore)
        (docs : list Document) (e : exception) :
  files <> [] ->
  Forall (fun file => accepted file = true) files ->
  load_documents_from_files rp (entries files) = Ok docs ->
  docs <> [] ->
  (create_vector_store rp docs = Raise e \/
   exists vs retr,
     create_vector_store rp docs = Ok vs /\
     as_retriever vs 3 = Ok retr /\
     create_agent rp retr = Raise e) ->
  let run := upload_invoices files rp st in
  (is_ValueError e = false ->
   outcome run = Raise (HTTPException 500 ("Internal server error: " ++ str_exc e))) /\
  (is_ValueError e = true ->
   outcome run = Raise (HTTPException 400 (str_exc e))) /\
  final_store run = st.
Proof.
  intros Hne Hall Hl Hd Hraise run. subst run.
  assert (Hstage : stage_raises rp (entries files) e).
  { destruct Hraise as [Hv|(vs & retr & Hv & Hr & Ha)].
    - now apply Index_raises with docs.
    - now apply Agent_raises with docs vs retr. }
  destruct (upload_stage_raises files rp st e Hne Hall (or_introl Hstage)) as [-> Hst].
  unfold reported. split; [|split].
  - intros ->. reflexivity.
  - intros ->. reflexivity.
  - now apply Hst.
Qed.

(** *** A batch without documents *)

(** C4, as the handler runs: when every file is accepted and the Document
    Loader returns no document, the [HTTPException] with status 400 raised
    inside the second [try] is caught by its [except Exception] handler and
    raised again with status 500.  The Index Builder, the Agent Builder and
    [create_session] are not invoked, and the session store is left as it
    was. *)
Theorem no_documents_is_answered_with_500
        (files : list UploadFile) (rp : InvoiceRAGPipeline) (st : SessionStore) :
  files <> [] ->
  Forall (fun file => accepted file = true) files ->
  load_documents_from_files rp (entries files) = Ok [] ->
  upload_invoices files rp st =
  (Raise (HTTPException 500
            ("Internal server error: " ++
             HTTPException_str 400
               "No valid documents could be extracted from the uploaded files")),
   st,
   (reads files ++ [EvLoadDocuments (entries files)])%list).
Proof.
  intros Hne Hall Hl. rewrite (upload_accepted_run files rp st Hne Hall).
  now rewrite (guarded_no_documents rp (entries files) st Hl).
Qed.

(** *** A CSV file and an empty JSON file *)




End Properties.

(** ** The handler on concrete batches *)

Section Runs.

Import Demo.

(** C1 on two runs: in the run that registers a session, the session's
    vector store and agent are the ones the stages built; in the run whose
    index construction raises, no session is registered. *)
Lemma session_is_created_only_after_all_stages_witness :
  (exists docs retr,
      stages_succeed pipeline (entries [invoices_csv; empty_json])
                     docs invoice_documents retr (invoice_documents, 3) /\
      events (run [invoices_csv; empty_json] pipeline []) =
      complete_events [invoices_csv; empty_json] docs invoice_documents retr
                      (invoice_documents, 3)) /\
  (Forall (fun ev => is_create_session ev = false)
          (events (run [invoices_csv] misconfigured [])) /\
   final_store (run [invoices_csv] misconfigured []) = [] /\
   exists e', outcome (run [invoices_csv] misconfigured []) = Raise e').
Proof.
  split.
  - apply (proj1 (session_is_created_only_after_all_stages
                    [invoices_csv; empty_json] pipeline [])).
    vm_compute. auto 10.
  - apply (proj1 (proj2 (session_is_created_only_after_all_stages
                           [invoices_csv] misconfigured []))
             (ValueError "embedding model is not configured")).
    + discriminate.
    + repeat constructor.
    + apply Index_raises with invoice_documents; [reflexivity|discriminate|reflexivity].
Defined.

(** C7 on a successful run. *)
Lemma retrieval_width_is_three_witness :
  exists vs retr a,
    as_retriever vs 3 = Ok retr /\
    create_agent pipeline retr = Ok a /\
    In (EvAsRetriever vs 3) (events (run [invoices_csv; empty_json] pipeline [])) /\
    In (EvCreateAgent retr) (events (run [invoices_csv; empty_json] pipeline [])) /\
    In (EvCreateSession vs a) (events (run [invoices_csv; empty_json] pipeline [])).
Proof.
  apply (proj2 (retrieval_width_is_three [invoices_csv; empty_json] pipeline [])
               {| session_id := "session-0";
                  message := "Files uploaded and processed successfully";
                  files_processed := 2 |}).
  reflexivity.
Defined.

(** C10 on a batch whose second file cannot be read: the third file is not
    reached. *)
Lemma read_failure_aborts_the_upload_witness :
  run [invoices_csv; broken_csv; notes_txt] pipeline [] =
  (Raise (HTTPException 400 "Error reading file broken.csv: connection reset"),
   [], [EvRead "invoices.csv"; EvRead "broken.csv"]).
Proof.
  apply (read_failure_aborts_the_upload
           [invoices_csv] [notes_txt] broken_csv pipeline []
           (OtherException "connection reset")).
  - repeat constructor.
  - reflexivity.
  - apply Read_raises. reflexivity.
Defined.

(** The same for a file over the size limit: the exception of the size check
    is caught by the handler of the read block. *)
Example oversized_file_aborts_the_upload :
  run [invoices_csv; huge_json; notes_txt] pipeline [] =
  (Raise (HTTPException 400
            "Error reading file huge.json: 400: File huge.json exceeds maximum size of 1024 bytes"),
   [], [EvRead "invoices.csv"; EvRead "huge.json"]).
Proof. vm_compute. reflexivity. Qed.

(** C2 fails on the handler: the batch of [invoices.csv] alone is accepted,
    and the same batch with [notes.txt] added is rejected on account of
    [notes.txt], before any document is loaded. *)
Lemma unrecognized_extension_fails_the_batch :
  extension_allowed notes_txt = false /\
  outcome (run [invoices_csv] pipeline []) =
  Ok {| session_id := "session-0";
        message := "Files uploaded and processed successfully";
        files_processed := 1 |} /\
  run [invoices_csv; notes_txt] pipeline [] =
  (Raise (HTTPException 400
            "File notes.txt has unsupported format. Allowed: ['json', 'csv']"),
   [], [EvRead "invoices.csv"]).
Proof. vm_compute. repeat split. Qed.

(** C2, as the handler has it, on that batch. *)
Lemma unsupported_extension_rejects_the_upload_witness :
  (exists d, outcome (run [invoices_csv; notes_txt] pipeline []) =
             Raise (HTTPException 400 d)) /\
  Forall (fun ev => is_read ev = true) (events (run [invoices_csv; notes_txt] pipeline [])) /\
  final_store (run [invoices_csv; notes_txt] pipeline []) = [].
Proof.
  assert (Hex : Exists (fun file => extension_allowed file = false)
                       [invoices_csv; notes_txt])
    by (apply Exists_cons_tl, Exists_cons_hd; reflexivity).
  pose proof (unsupported_extension_rejects_the_upload
                [invoices_csv; notes_txt] pipeline [] Hex) as (Hout & Hev & Hst & _).
  auto.
Defined.

(** C3 fails on the handler: index construction raises a [ValueError], and
    the upload answers with status 400. *)
Lemma construction_failure_answered_with_400 :
  create_vector_store misconfigured invoice_documents =
  Raise (ValueError "embedding model is not configured") /\
  run [invoices_csv] misconfigured [] =
  (Raise (HTTPException 400 "embedding model is not configured"),
   [],
   [EvRead "invoices.csv";
    EvLoadDocuments (entries [invoices_csv]);
    EvCreateVectorStore invoice_documents]).
Proof. vm_compute. split; reflexivity. Qed.

(** C3, as the handler has it, on that run. *)
Lemma construction_failure_is_reported_witness :
  outcome (run [invoices_csv] misconfigured []) =
  Raise (HTTPException 400 "embedding model is not configured") /\
  final_store (run [invoices_csv] misconfigured []) = [].
Proof.
  pose proof (construction_failure_is_reported
                [invoices_csv] misconfigured [] invoice_documents
                (ValueError "embedding model is not configured")) as Hthm.
  destruct Hthm as (_ & H400 & Hst).
  - discriminate.
  - repeat constructor.
  - reflexivity.
  - discriminate.
  - left. reflexivity.
  - split; [apply H400; reflexivity|exact Hst].
Defined.

(** C9 on the same run. *)
Lemma stage_exceptions_are_reported_witness :
  outcome (run [invoices_csv] misconfigured []) =
  Raise (HTTPException 400 "embedding model is not configured").
Proof.
  apply (stage_exceptions_are_reported
           [invoices_csv] misconfigured []
           (ValueError "embedding model is not configured")).
  - discriminate.
  - repeat constructor.
  - left. apply Index_raises with invoice_documents; [reflexivity|discriminate|reflexivity].
  - reflexivity.
  - reflexivity.
Defined.

(** C4 on a batch of one empty JSON file: the answer has status 500. *)
Lemma no_documents_is_answered_with_500_witness :
  run [empty_json] pipeline [] =
  (Raise (HTTPException 500
            "Internal server error: 400: No valid documents could be extracted from the uploaded files"),
   [],
   [EvRead "empty.json"; EvLoadDocuments [("empty.json", [])]]).
Proof.
  apply (no_documents_is_answered_with_500 [empty_json] pipeline []).
  - discriminate.
  - repeat constructor.
  - reflexivity.
Defined.



End Runs.

(** ** More on the Python string operations the handler uses *)

Section Strings.

Lemma length_app (a b : string) :
  String.length (a ++ b) = (String.length a + String.length b)%nat.
Proof. induction a as [|c a IH]; simpl; [reflexivity|now rewrite IH]. Qed.

Lemma substring_whole (s : string) : substring 0 (String.length s) s = s.
Proof. induction s as [|c s IH]; simpl; [reflexivity|now rewrite IH]. Qed.

Lemma substring_skip (p s : string) (m : nat) :
  substring (String.length p) m (p ++ s) = substring 0 m s.
Proof. induction p as [|c p IH]; simpl; [reflexivity|exact IH]. Qed.

Lemma substring_split (s : string) :
  forall k, (k <= String.length s)%nat ->
            s = substring 0 k s ++ substring k (String.length s - k) s.
Proof.
  induction s as [|c s IH]; intros k Hk; simpl in *.
  - destruct k; reflexivity.
  - destruct k as [|k]; simpl.
    + now rewrite substring_whole.
    + rewrite <- IH by lia. reflexivity.
Qed.

Lemma endswith_app (p suffix : string) : PyStr.endswith (p ++ suffix) suffix = true.
Proof.
  unfold PyStr.endswith. rewrite length_app.
  replace (String.length suffix <=? String.length p + String.length suffix)%nat
    with true by (symmetry; apply Nat.leb_le; lia).
  replace (String.length p + String.length suffix - String.length suffix)%nat
    with (String.length p) by lia.
  rewrite substring_skip, substring_whole. apply String.eqb_refl.
Qed.

Lemma endswith_inv (s suffix : string) :
  PyStr.endswith s suffix = true -> exists p, s = p ++ suffix.
Proof.
  unfold PyStr.endswith.
  destruct (String.length suffix <=? String.length s)%nat eqn:Hle; [|discriminate].
  apply Nat.leb_le in Hle. intros Heq. apply String.eqb_eq in Heq.
  exists (substring 0 (String.length s - String.length suffix) s).
  pose proof (substring_split s (String.length s - String.length suffix)%nat) as Hsplit.
  replace (String.length s - (String.length s - String.length suffix))%nat
    with (String.length suffix) in Hsplit by lia.
  rewrite Heq in Hsplit. apply Hsplit. lia.
Qed.

Lemma lower_app (a b : string) : PyStr.lower (a ++ b) = PyStr.lower a ++ PyStr.lower b.
Proof. induction a as [|c a IH]; simpl; [reflexivity|now rewrite IH]. Qed.

Lemma lower_ascii_not_upper (c : ascii) : PyStr.is_upper (PyStr.lower_ascii c) = false.
Proof. destruct c as [[] [] [] [] [] [] [] []]; reflexivity. Qed.

Lemma lower_has_no_upper (s : string) : PyStr.has_upper (PyStr.lower s) = false.
Proof.
  induction s as [|c s IH]; simpl; [reflexivity|].
  now rewrite lower_ascii_not_upper, IH.
Qed.

Lemma has_upper_app (a b : string) :
  PyStr.has_upper (a ++ b) = PyStr.has_upper a || PyStr.has_upper b.
Proof.
  induction a as [|c a IH]; simpl; [reflexivity|]. now rewrite IH, orb_assoc.
Qed.

End Strings.

(** ** Further properties of the handler *)

Section Validation.

Context `{Env : Environment}.

(** *** Which names pass the extension check *)

(** X1: a file passes the extension check exactly when its lower-cased name
    is some stem followed by a dot and one of the allowed types, taken as
    they are written in the settings. *)
Theorem extension_allowed_iff (file : UploadFile) :
  extension_allowed file = true <->
  exists ext stem,
    In ext (allowed_file_types settings) /\
    PyStr.lower (filename file) = stem ++ "." ++ ext.
Proof.
  unfold extension_allowed. rewrite existsb_exists. split.
  - intros (ext & Hin & Hend). apply endswith_inv in Hend. destruct Hend as [stem Hstem].
    exists ext, stem. auto.
  - intros (ext & stem & Hin & Hname). exists ext. split; [assumption|].
    rewrite Hname. apply endswith_app.
Qed.

(** X2: the check ignores the case of the file name: a name made of any
    stem, a dot and an extension whose lower-cased form is an allowed type
    passes, whatever the case of its letters. *)
Theorem extension_check_ignores_case (stem ext : string) (r : result bytes) :
  In (PyStr.lower ext) (allowed_file_types settings) ->
  extension_allowed {| filename := stem ++ "." ++ ext; read := r |} = true.
Proof.
  intros Hin. apply extension_allowed_iff.
  exists (PyStr.lower ext), (PyStr.lower stem). split; [assumption|].
  simpl. rewrite lower_app. reflexivity.
Qed.

Lemma upper_type_never_matches (file : UploadFile) (ext : string) :
  PyStr.has_upper ext = true ->
  PyStr.endswith (PyStr.lower (filename file)) ("." ++ ext) = false.
Proof.
  intros Hup. destruct (PyStr.endswith _ _) eqn:Hend; [|reflexivity].
  apply endswith_inv in Hend. destruct Hend as [stem Hstem].
  pose proof (lower_has_no_upper (filename file)) as Hno.
  rewrite Hstem, has_upper_app in Hno. simpl in Hno.
  rewrite Hup in Hno. rewrite orb_true_r in Hno. discriminate.
Qed.

(** X3: the allowed types are not lower-cased, the file names are.  When
    every allowed type is written with an upper-case letter (or there is no
    allowed type at all), every batch is rejected at its first file with an
    HTTP 400 error, and no file is read. *)
Theorem upper_case_types_reject_every_batch
        (file : UploadFile) (rest : list UploadFile)
        (rp : InvoiceRAGPipeline) (st : SessionStore) :
  Forall (fun ext => PyStr.has_upper ext = true) (allowed_file_types settings) ->
  upload_invoices (file :: rest) rp st =
  (Raise (HTTPException 400
            ("File " ++ filename file ++ " has unsupported format. Allowed: "
             ++ PyStr.str_list repr_str (allowed_file_types settings))),
   st, []).
Proof.
  intros Hall.
  assert (Hext : extension_allowed file = false).
  { unfold extension_allowed. induction Hall as [|ext exts Hext _ IH]; cbn [existsb].
    - reflexivity.
    - now rewrite (upper_type_never_matches file ext Hext), IH. }
  unfold upload_invoices, bind. cbn [process_files]. unfold bind, process_file.
  rewrite Hext. reflexivity.
Qed.

(** *** The size limit *)

(** X4: the size limit is inclusive.  A file with an allowed extension whose
    read returns [content] is appended to [processed_files] exactly when
    [len(content) <= max_file_size]; a file of exactly [max_file_size] bytes
    passes. *)
Theorem size_limit_is_inclusive
        (file : UploadFile) (content : bytes)
        (acc : list (string * bytes)) (st : SessionStore) :
  extension_allowed file = true ->
  read file = Ok content ->
  (outcome (process_file file acc st) = Ok (acc ++ [(filename file, content)])%list <->
   len content <= max_file_size settings).
Proof.
  intros Hext Hread.
  unfold process_file, try_except, bind, call, raise, ret, outcome.
  rewrite Hext, Hread. simpl.
  destruct (len content >? max_file_size settings) eqn:Hgt; simpl.
  - apply Z.gtb_gt in Hgt. split; [discriminate|lia].
  - split; [|reflexivity]. intros _.
    rewrite Z.gtb_ltb in Hgt. apply Z.ltb_ge in Hgt. exact Hgt.
Qed.

(** *** The first rejected file decides *)

(** X5: when a file is not accepted and every file before it is, what
    follows it in the batch and the pipeline have no influence on the run:
    the answer, the store and the calls made are those of the batch cut
    after that file, with any pipeline. *)
Theorem first_rejected_file_decides
        (pre post : list UploadFile) (file : UploadFile)
        (rp rp' : InvoiceRAGPipeline) (st : SessionStore) :
  Forall (fun f => accepted f = true) pre ->
  accepted file = false ->
  upload_invoices (pre ++ file :: post)%list rp st =
  upload_invoices (pre ++ [file])%list rp' st.
Proof.
  intros Hpre Hrej.
  assert (Hrun : forall post',
             process_files (pre ++ file :: post')%list [] st =
             process_files (pre ++ [file])%list [] st /\
             exists e, outcome (process_files (pre ++ [file])%list [] st) = Raise e).
  { intros post'.
    rewrite (process_files_prefix pre (file :: post') Hpre).
    rewrite (process_files_prefix pre [file] Hpre). simpl. unfold bind.
    destruct (process_file_run file (entries pre) st)
      as [[Hacc _]|[_ (d & t & -> & _)]]; [congruence|].
    split; [reflexivity|]. eexists. reflexivity. }
  destruct (Hrun post) as [Hpost [e He]].
  destruct (pre ++ file :: post)%list as [|f1 r1] eqn:H1; [destruct pre; discriminate|].
  destruct (pre ++ [file])%list as [|f2 r2] eqn:H2; [destruct pre; discriminate|].
  unfold upload_invoices, bind. rewrite Hpost.
  destruct (process_files (f2 :: r2) [] st) as [[[pfs|e'] s] t]; [discriminate|reflexivity].
Qed.

End Validation.

Section Orchestration.

Context `{Env : Environment}.

Local Abbreviation second_try rp pfs :=
  (try_except (build_session rp pfs) handle_exception).

(** *** What reaches the loader *)

Lemma entries_of_accepted (files : list UploadFile) :
  Forall (fun file => accepted file = true) files ->
  map fst (entries files) = map filename files /\
  map (fun p => Ok (snd p)) (entries files) = map read files /\
  List.length (entries files) = List.length files.
Proof.
  induction 1 as [|file files Hfile _ (IHn & IHc & IHl)]; [repeat split|].
  unfold accepted in Hfile. apply andb_true_iff in Hfile. destruct Hfile as [_ Hfile].
  unfold entries in *. cbn [flat_map]. unfold entry at 1 3 5.
  destruct (read file) as [content|e] eqn:Hread; [|discriminate].
  cbn [app map fst snd List.length]. rewrite IHn, IHc, IHl, Hread. repeat split.
Qed.

Lemma second_try_events rp pfs st :
  exists t, events (second_try rp pfs st) = EvLoadDocuments pfs :: t /\
            map stage_of t = seq 2 (List.length t) /\
            (List.length t <= 4)%nat.
Proof.
  unfold try_except, build_session, bind, call, call_create_session, raise, ret, events.
  destruct (load_documents_from_files rp pfs) as [[|doc docs]|e]; cbn;
    try (rewrite handle_exception_run; cbn); [eexists; repeat split; cbn; lia| |
    eexists; repeat split; cbn; lia].
  destruct (create_vector_store rp (doc :: docs)) as [vs|e]; cbn;
    try (rewrite handle_exception_run; cbn); [|eexists; repeat split; cbn; lia].
  destruct (as_retriever vs 3) as [retr|e]; cbn;
    try (rewrite handle_exception_run; cbn); [|eexists; repeat split; cbn; lia].
  destruct (create_agent rp retr) as [a|e]; cbn;
    try (rewrite handle_exception_run; cbn); [|eexists; repeat split; cbn; lia].
  destruct (create_session st vs a) as [st' [sid|e]]; cbn;
    try (rewrite handle_exception_run; cbn); eexists; repeat split; cbn; lia.
Qed.

Lemma process_files_reads (files : list UploadFile) :
  forall acc st,
  exists n, (n <= List.length files)%nat /\
            events (process_files files acc st) = reads (firstn n files) /\
            (forall pfs, outcome (process_files files acc st) = Ok pfs ->
                         n = List.length files).
Proof.
  induction files as [|file rest IH]; intros acc st.
  - exists 0%nat. repeat split; auto.
  - cbn [process_files]. unfold bind.
    destruct (process_file_run file acc st) as [[_ ->]|[_ (d & t & -> & Ht)]].
    + destruct (IH (acc ++ entry file)%list st) as (n & Hn & Hev & Hok).
      destruct (process_files rest (acc ++ entry file)%list st) as [[r s] t].
      unfold events, outcome in *; cbn in *. exists (S n). split; [lia|]. split.
      * cbn. now rewrite Hev.
      * intros pfs Hr. f_equal. eauto.
    + unfold events, outcome; cbn. destruct Ht as [-> | ->].
      * exists 0%nat. split; [lia|]. split; [reflexivity|discriminate].
      * exists 1%nat. split; [cbn; lia|]. split; [reflexivity|discriminate].
Qed.

Lemma upload_rejected_events files rp st :
  Exists (fun file => accepted file = false) files ->
  events (upload_invoices files rp st) = events (process_files files [] st).
Proof.
  intros Hex. destruct files as [|file rest]; [inversion Hex|].
  unfold upload_invoices, bind.
  destruct (process_files_rejected (file :: rest) [] st Hex) as [d Hd].
  destruct (process_files (file :: rest) [] st) as [[[pfs|e] s] t];
    [discriminate|reflexivity].
Qed.

(** The shape of the event log of any run. *)
Lemma upload_events files rp st :
  (exists n, (n <= List.length files)%nat /\
             events (upload_invoices files rp st) = reads (firstn n files) /\
             exists d, outcome (upload_invoices files rp st) = Raise (HTTPException 400 d))
  \/
  (files <> [] /\
   Forall (fun file => accepted file = true) files /\
   exists t, events (upload_invoices files rp st) =
             (reads files ++ EvLoadDocuments (entries files) :: t)%list /\
             map stage_of t = seq 2 (List.length t) /\
             (List.length t <= 4)%nat).
Proof.
  destruct files as [|file rest] eqn:Hfiles.
  { left. exists 0%nat. repeat split; auto. eexists. reflexivity. }
  rewrite <- Hfiles. assert (Hne : files <> []) by (subst; discriminate). clear Hfiles.
  destruct (accepted_or_rejected files) as [Hall|Hex].
  - right. split; [assumption|]. split; [assumption|].
    rewrite (upload_accepted_run files rp st Hne Hall).
    destruct (second_try_events rp (entries files) st) as (t & Hev & Hst & Hlen).
    destruct (second_try rp (entries files) st) as [[r s] t0].
    unfold events in *; cbn in *. subst t0. eauto.
  - left. destruct (process_files_reads files [] st) as (n & Hn & Hev & _).
    exists n. split; [assumption|]. split.
    + now rewrite (upload_rejected_events files rp st Hex).
    + destruct (upload_rejected_run files rp st Hex) as (d & t & -> & _).
      exists d. reflexivity.
Qed.

Lemma in_reads_is_read (files : list UploadFile) (ev : event) :
  In ev (reads files) -> is_read ev = true.
Proof. apply in_all, reads_are_reads. Qed.

Lemma in_later_stages (t : list event) (ev : event) :
  map stage_of t = seq 2 (List.length t) -> In ev t -> (2 <= stage_of ev)%nat.
Proof.
  intros Hst Hin. apply (in_map stage_of) in Hin. rewrite Hst in Hin.
  apply in_seq in Hin. lia.
Qed.

Lemma later_stages_are_not_reads (t : list event) :
  map stage_of t = seq 2 (List.length t) -> filter is_read t = [].
Proof.
  intros Hst.
  assert (Hall : forall ev, In ev t -> is_read ev = false).
  { intros ev Hin. apply (in_later_stages t ev Hst) in Hin.
    destruct ev; cbn in *; try reflexivity; lia. }
  clear Hst. induction t as [|ev t IH]; [reflexivity|]. cbn.
  rewrite (Hall ev (or_introl eq_refl)). apply IH.
  intros ev' Hin. apply Hall. now right.
Qed.

(** X6: whenever the Document Loader is invoked, it is given one
    [(filename, content)] pair for every uploaded file, in upload order: the
    names are the files' names and the contents are what their reads
    returned.  No file is dropped, merged or reordered. *)
Theorem loader_receives_every_file
        (files : list UploadFile) (rp : InvoiceRAGPipeline) (st : SessionStore)
        (pfs : list (string * bytes)) :
  In (EvLoadDocuments pfs) (events (upload_invoices files rp st)) ->
  map fst pfs = map filename files /\
  map (fun p => Ok (snd p)) pfs = map read files.
Proof.
  intros Hin.
  destruct (upload_events files rp st)
    as [(n & _ & Hev & _)|(_ & Hall & t & Hev & Hst & _)]; rewrite Hev in Hin.
  - apply in_reads_is_read in Hin. discriminate.
  - apply in_app_iff in Hin. destruct Hin as [Hin|[Hin|Hin]].
    + apply in_reads_is_read in Hin. discriminate.
    + injection Hin as <-.
      destruct (entries_of_accepted files Hall) as (Hn & Hc & _). auto.
    + apply (in_later_stages t _ Hst) in Hin. cbn in Hin. lia.
Qed.

(** X7: the calls of a run follow the order of the handler.  The files are
    read in upload order, each at most once; the loader, the index builder,
    the retriever factory, the agent builder and [create_session] are each
    invoked at most once, in this order and without a gap, and only once
    every file has been read. *)
Theorem calls_follow_the_pipeline_order
        (files : list UploadFile) (rp : InvoiceRAGPipeline) (st : SessionStore) :
  exists n t,
    events (upload_invoices files rp st) = (reads (firstn n files) ++ t)%list /\
    (n <= List.length files)%nat /\
    map stage_of t = seq 1 (List.length t) /\
    (List.length t <= 5)%nat /\
    (t <> [] -> n = List.length files).
Proof.
  destruct (upload_events files rp st)
    as [(n & Hn & Hev & _)|(_ & _ & t & Hev & Hst & Hlen)].
  - exists n, []. rewrite Hev, app_nil_r.
    split; [reflexivity|]. split; [assumption|]. split; [reflexivity|].
    split; [cbn; lia|]. intros Hnil. now contradiction Hnil.
  - exists (List.length files), (EvLoadDocuments (entries files) :: t).
    rewrite firstn_all. split; [assumption|]. split; [lia|].
    split; [cbn; now rewrite Hst|]. split; [cbn; lia|]. reflexivity.
Qed.

(** *** Answers *)

(** X8: a failed upload is always answered with an [HTTPException] of status
    400 or 500, never with another exception or status; status 500 only
    arises once every file has been read and the loader has been invoked. *)
Theorem failures_are_400_or_500
        (files : list UploadFile) (rp : InvoiceRAGPipeline) (st : SessionStore)
        (e : exception) :
  outcome (upload_invoices files rp st) = Raise e ->
  (exists d, e = HTTPException 400 d) \/
  (exists d, e = HTTPException 500 d /\
             In (EvLoadDocuments (entries files)) (events (upload_invoices files rp st)) /\
             filter is_read (events (upload_invoices files rp st)) = reads files).
Proof.
  intros Hout.
  destruct (upload_events files rp st)
    as [(n & _ & _ & d & Hd)|(_ & _ & t & Hev & Hst & _)].
  - left. exists d. congruence.
  - assert (Hloader : In (EvLoadDocuments (entries files))
                         (events (upload_invoices files rp st)) /\
                      filter is_read (events (upload_invoices files rp st)) = reads files).
    { rewrite Hev. split; [apply in_or_app; right; left; reflexivity|].
      rewrite filter_app. cbn.
      replace (filter is_read t) with (@nil event).
      - rewrite app_nil_r. apply forallb_filter_id, forallb_forall.
        intros ev. apply in_reads_is_read.
      - symmetry. apply later_stages_are_not_reads. exact Hst. }
    destruct (upload_cases files rp st)
      as [(d & t' & Hrun & _)
         |(_ & _ & [(e' & t' & _ & Hrun & _)
                   |[(_ & Hrun)|(docs & vs & retr & a & _ & Hrun)]])];
      rewrite Hrun in Hout; unfold outcome in Hout; cbn in Hout.
    + left. exists d. congruence.
    + injection Hout as <-. unfold reported. destruct (is_ValueError e'); eauto.
    + right. injection Hout as <-. eauto.
    + destruct (snd (create_session st vs a)) as [sid|e']; [discriminate|].
      injection Hout as <-. unfold reported. destruct (is_ValueError e'); eauto.
Qed.

(** X9: the upload succeeds exactly when the batch is not empty, every file
    is accepted, the loader returns at least one document, the index, the
    retriever and the agent are built, and [create_session] returns an id. *)
Theorem upload_succeeds_iff
        (files : list UploadFile) (rp : InvoiceRAGPipeline) (st : SessionStore) :
  (exists response, outcome (upload_invoices files rp st) = Ok response) <->
  (files <> [] /\
   Forall (fun file => accepted file = true) files /\
   exists docs vs retr a st' sid,
     stages_succeed rp (entries files) docs vs retr a /\
     create_session st vs a = (st', Ok sid)).
Proof.
  split.
  - intros [response Hout].
    destruct (upload_cases files rp st)
      as [(d & t & Hrun & _)
         |(Hne & Hall & [(e & t & _ & Hrun & _)
                        |[(_ & Hrun)|(docs & vs & retr & a & Hok & Hrun)]])];
      rewrite Hrun in Hout; unfold outcome in Hout; cbn in Hout; try discriminate.
    split; [assumption|]. split; [assumption|].
    destruct (create_session st vs a) as [st' [sid|e]] eqn:Hcs; [|discriminate].
    exists docs, vs, retr, a, st', sid. auto.
  - intros (Hne & Hall & docs & vs & retr & a & st' & sid & Hok & Hcs).
    rewrite (upload_accepted_run files rp st Hne Hall).
    rewrite (guarded_stages_succeed rp (entries files) st docs vs retr a Hok), Hcs.
    eexists. reflexivity.
Qed.

(** X10: the response of a successful upload carries the id that
    [create_session] returned for the vector store and the agent of the run,
    the fixed message, and [files_processed] equal to the number of uploaded
    files; the store is the one [create_session] left. *)
Theorem successful_response
        (files : list UploadFile) (rp : InvoiceRAGPipeline) (st : SessionStore)
        (response : UploadResponse) :
  outcome (upload_invoices files rp st) = Ok response ->
  files_processed response = Z.of_nat (List.length files) /\
  message response = "Files uploaded and processed successfully" /\
  exists vs a,
    In (EvCreateSession vs a) (events (upload_invoices files rp st)) /\
    create_session st vs a =
    (final_store (upload_invoices files rp st), Ok (session_id response)).
Proof.
  intros Hout.
  destruct (upload_cases files rp st)
    as [(d & t & Hrun & _)
       |(Hne & Hall & [(e & t & _ & Hrun & _)
                      |[(_ & Hrun)|(docs & vs & retr & a & Hok & Hrun)]])];
    rewrite Hrun in *; unfold outcome, final_store, events in *; cbn in *;
    try discriminate.
  destruct (create_session st vs a) as [st' [sid|e]] eqn:Hcs; [|discriminate].
  cbn in *. injection Hout as <-. cbn.
  destruct (entries_of_accepted files Hall) as (_ & _ & ->).
  split; [reflexivity|]. split; [reflexivity|].
  exists vs, a. split; [|exact Hcs].
  unfold complete_events. apply in_or_app. right. cbn. auto 6.
Qed.

(** X11: the handler does not undo what a failing [create_session] did.
    When every stage succeeds and [create_session] raises [e], the upload
    fails (status 400 for a [ValueError], 500 otherwise) and the session
    store is left as [create_session] left it. *)
Theorem failed_session_creation_is_not_undone
        (files : list UploadFile) (rp : InvoiceRAGPipeline) (st st' : SessionStore)
        (docs : list Document) (vs : VectorStore) (retr : Retriever) (a : Agent)
        (e : exception) :
  files <> [] ->
  Forall (fun file => accepted file = true) files ->
  stages_succeed rp (entries files) docs vs retr a ->
  create_session st vs a = (st', Raise e) ->
  upload_invoices files rp st =
  (Raise (if is_ValueError e
          then HTTPException 400 (str_exc e)
          else HTTPException 500 ("Internal server error: " ++ str_exc e)),
   st',
   complete_events files docs vs retr a).
Proof.
  intros Hne Hall Hok Hcs.
  rewrite (upload_accepted_run files rp st Hne Hall).
  rewrite (guarded_stages_succeed rp (entries files) st docs vs retr a Hok), Hcs.
  reflexivity.
Qed.

(** X12: an [HTTPException] raised by a stage of the second [try] does not
    keep its status: whatever its status code, the upload is answered with
    status 500, and the detail is "Internal server error: " followed by
    [str] of the exception. *)
Theorem http_exception_of_a_stage_becomes_500
        (files : list UploadFile) (rp : InvoiceRAGPipeline) (st : SessionStore)
        (status : Z) (detail : string) :
  files <> [] ->
  Forall (fun file => accepted file = true) files ->
  stage_raises rp (entries files) (HTTPException status detail) \/
  session_creation_raises rp (entries files) st (HTTPException status detail) ->
  outcome (upload_invoices files rp st) =
  Raise (HTTPException 500
           ("Internal server error: " ++ HTTPException_str status detail)).
Proof.
  intros Hne Hall Hraise.
  destruct (upload_stage_raises files rp st _ Hne Hall Hraise) as [-> _].
  reflexivity.
Qed.

End Orchestration.

(** ** The further properties on concrete batches *)

Section MoreRuns.

Import Demo.

(** X2 on [Q3-Invoices.CSV]. *)
Lemma extension_check_ignores_case_witness :
  extension_allowed capital_csv = true.
Proof.
  apply (extension_check_ignores_case "Q3-Invoices" "CSV").
  simpl. auto.
Defined.

(** X3 with the allowed types [CSV] and [Json]: [invoices.csv] is rejected. *)
Lemma upper_case_types_reject_every_batch_witness :
  upload_invoices (Env := capital_types) [invoices_csv; empty_json]
                  (pipeline_with capital_types
                     (fun files => Ok (flat_map load_file files))
                     (fun documents => Ok documents) (fun retriever => Ok retriever))
                  [] =
  (Raise (HTTPException 400
            "File invoices.csv has unsupported format. Allowed: ['CSV', 'Json']"),
   [], []).
Proof.
  apply (upper_case_types_reject_every_batch (Env := capital_types)).
  repeat constructor.
Defined.

(** X4 on a file of exactly 1024 bytes, the limit. *)
Lemma size_limit_is_inclusive_witness :
  outcome (process_file (Env := env) full_json [] []) =
  Ok [("full.json", repeat "{"%byte 1024)].
Proof.
  apply (proj2 (size_limit_is_inclusive (Env := env) full_json (repeat "{"%byte 1024)
                                        [] [] eq_refl eq_refl)).
  vm_compute. discriminate.
Defined.

(** X5: after [notes.txt] is rejected, neither [empty.json] nor the pipeline
    matters. *)
Lemma first_rejected_file_decides_witness :
  run [invoices_csv; notes_txt; empty_json] pipeline [] =
  run [invoices_csv; notes_txt] misconfigured [].
Proof.
  apply (first_rejected_file_decides [invoices_csv] [empty_json] notes_txt).
  - repeat constructor.
  - reflexivity.
Defined.

(** X6 on the batch of [invoices.csv] and [empty.json]. *)
Lemma loader_receives_every_file_witness :
  map fst (entries [invoices_csv; empty_json]) = ["invoices.csv"; "empty.json"] /\
  map (fun p => Ok (snd p)) (entries [invoices_csv; empty_json]) =
  [read invoices_csv; read empty_json].
Proof.
  apply (loader_receives_every_file [invoices_csv; empty_json] pipeline []).
  vm_compute. auto.
Defined.

(** X8 on the batch of one empty JSON file. *)
Lemma failures_are_400_or_500_witness :
  (exists d,
      HTTPException 500
        "Internal server error: 400: No valid documents could be extracted from the uploaded files"
      = HTTPException 400 d) \/
  (exists d,
      HTTPException 500
        "Internal server error: 400: No valid documents could be extracted from the uploaded files"
      = HTTPException 500 d /\
      In (EvLoadDocuments (entries [empty_json])) (events (run [empty_json] pipeline [])) /\
      filter is_read (events (run [empty_json] pipeline [])) = reads [empty_json]).
Proof.
  apply (failures_are_400_or_500 [empty_json] pipeline []).
  reflexivity.
Defined.

(** X10 on the batch of [invoices.csv] and [empty.json]. *)
Lemma successful_response_witness :
  exists vs a,
    In (EvCreateSession vs a) (events (run [invoices_csv; empty_json] pipeline [])) /\
    new_session [] vs a =
    (final_store (run [invoices_csv; empty_json] pipeline []), Ok "session-0").
Proof.
  apply (successful_response [invoices_csv; empty_json] pipeline []
           {| session_id := "session-0";
              message := "Files uploaded and processed successfully";
              files_processed := 2 |}).
  reflexivity.
Defined.

(** X11 with a session store that records the session and then raises. *)
Lemma failed_session_creation_is_not_undone_witness :
  upload_invoices (Env := full_store) [invoices_csv]
                  (pipeline_with full_store
                     (fun files => Ok (flat_map load_file files))
                     (fun documents => Ok documents) (fun retriever => Ok retriever))
                  [] =
  (Raise (HTTPException 500 "Internal server error: session store is full"),
   [("unfinished", (invoice_documents, (invoice_documents, 3)))],
   complete_events (Env := full_store) [invoices_csv]
                   invoice_documents invoice_documents (invoice_documents, 3)
                   (invoice_documents, 3)).
Proof.
  apply (failed_session_creation_is_not_undone (Env := full_store)
           [invoices_csv] _ [] _ invoice_documents invoice_documents
           (invoice_documents, 3) (invoice_documents, 3)
           (OtherException "session store is full")).
  - discriminate.
  - repeat constructor.
  - repeat split; try reflexivity. discriminate.
  - reflexivity.
Defined.

(** X12 with a loader that raises an [HTTPException] with status 404. *)
Lemma http_exception_of_a_stage_becomes_500_witness :
  outcome (run [invoices_csv] remote_loader []) =
  Raise (HTTPException 500 "Internal server error: 404: parser service not found").
Proof.
  apply (http_exception_of_a_stage_becomes_500 [invoices_csv] remote_loader [] 404
           "parser service not found").
  - discriminate.
  - repeat constructor.
  - left. apply Loading_raises. reflexivity.
Defined.

End MoreRuns.
